(** * The EVM [ecrecover] precompile of [ethereum/ecrecover.go]

    A shallow embedding of [allZero], [PrecompiledEcRecover] and [EcRecover].
    Bytes are [Init.Byte.byte] (with coqutil's [byte.unsigned] / [byte.of_Z]
    for the arithmetic on them), byte slices are lists, [big.Int] values are
    [Z], and a run of a Go function either returns or panics. *)

From Stdlib Require Import String List ZArith Lia Bool.
From Stdlib Require Strings.Byte.
From coqutil Require Import Byte.
Import ListNotations.
Import Corelib.Init.Byte.

Local Open Scope Z_scope.

(** ** The fragment of Go the file relies on *)

Module Go.

(** The two run-time panics the code can raise. *)
Inductive panic : Set :=
| IndexOutOfRange
| SliceBoundsOutOfRange.

(** A run of a function: it returns a value or it panics. *)
Inductive run (A : Type) : Type :=
| Returns (a : A)
| Panics (p : panic).
Arguments Returns {A} a.
Arguments Panics {A} p.

Definition bind {A B : Type} (m : run A) (k : A -> run B) : run B :=
  match m with
  | Returns a => k a
  | Panics p => Panics p
  end.

(** Go's [error]: [None] is the nil error. *)
Definition error : Type := option string.

(** A [[]byte] whose capacity matters: [elems] are the [len] visible
    elements, [spare] the bytes of the backing array between [len] and
    [cap]. *)
Record slice : Type := mkSlice { elems : list byte; spare : list byte }.

Definition len (s : slice) : nat := length (elems s).
Definition cap (s : slice) : nat := length (elems s) + length (spare s).

(** A slice with no spare capacity (what [make([]byte, n)] gives). *)
Definition whole (l : list byte) : slice := mkSlice l [].

(** [s[i]]: checked against [len]. *)
Definition index (s : slice) (i : nat) : run byte :=
  match nth_error (elems s) i with
  | Some b => Returns b
  | None => Panics IndexOutOfRange
  end.

(** [s[lo:hi]]: checked against [cap], reads the backing array. *)
Definition reslice (s : slice) (lo hi : nat) : run (list byte) :=
  if (lo <=? hi)%nat && (hi <=? cap s)%nat
  then Returns (firstn (hi - lo) (skipn lo (elems s ++ spare s)))
  else Panics SliceBoundsOutOfRange.

(** [s[lo:]]: the upper bound defaults to [len]. *)
Definition reslice_from (s : slice) (lo : nat) : run (list byte) :=
  if (lo <=? len s)%nat
  then Returns (skipn lo (elems s))
  else Panics SliceBoundsOutOfRange.

(** The same three operations on a list standing for a slice with
    [cap = len]; for a slice with more capacity the bound used here is the
    stricter one. *)
Definition at_ (l : list byte) (i : nat) : run byte := index (whole l) i.
Definition sub (l : list byte) (lo hi : nat) : run (list byte) :=
  reslice (whole l) lo hi.
Definition sub_from (l : list byte) (lo : nat) : run (list byte) :=
  reslice_from (whole l) lo.

(** [l[i] = b] *)
Definition store (l : list byte) (i : nat) (b : byte) : run (list byte) :=
  if (i <? length l)%nat
  then Returns (firstn i l ++ b :: skipn (S i) l)
  else Panics IndexOutOfRange.

(** The builtin [copy(dst, src)]: the contents of [dst] afterwards;
    [min (len dst) (len src)] elements are overwritten. *)
Definition copy (dst src : list byte) : list byte :=
  firstn (length dst) src ++ skipn (length src) dst.

(** Writing the window [lo, hi) of a buffer back after a [copy] into it. *)
Definition splice (buf : list byte) (lo hi : nat) (w : list byte) : list byte :=
  firstn lo buf ++ w ++ skipn hi buf.

End Go.
Import Go.

Notation "x <- m ;; k" := (bind m (fun x => k))
  (at level 61, m at next level, right associativity).

(** ** Library functions the file calls *)

(** [byte - byte] on Go's [uint8]: the difference modulo 256. *)
Definition byte_sub (a b : byte) : byte :=
  byte.of_Z (byte.unsigned a - byte.unsigned b).

(** [new(big.Int).SetBytes(b)]: [b] read as a big-endian unsigned integer. *)
Definition SetBytes (b : list byte) : Z :=
  fold_left (fun acc x => acc * 256 + byte.unsigned x) b 0.

(** Modelled from the spec: [common.RightPadBytes] is go-ethereum's and not
    part of this repository; it right-pads with zero bytes up to [l] and
    hands back a slice that is already that long as it is. *)
Definition RightPadBytes (slice : list byte) (l : nat) : list byte :=
  if (l <=? length slice)%nat then slice
  else Go.copy (repeat x00 l) slice.

(** Modelled from the spec: [common.LeftPadBytes] is go-ethereum's and not
    part of this repository; it left-pads with zero bytes up to [l]. *)
Definition LeftPadBytes (slice : list byte) (l : nat) : list byte :=
  if (l <=? length slice)%nat then slice
  else repeat x00 (l - length slice) ++ slice.

(** The order of the secp256k1 group and its half, as go-ethereum's
    [crypto] package defines them. *)
Definition secp256k1N : Z :=
  0xfffffffffffffffffffffffffffffffebaaedce6af48a03bbfd25e8cd0364141.
Definition secp256k1halfN : Z := secp256k1N / 2.

(** Modelled from the spec: [crypto.ValidateSignatureValues] is go-ethereum's
    and not part of this repository. Section 4.1 of the specification gives
    its rules: recovery id 0 or 1, [r] and [s] in the open range
    (0, curveOrder), and [s] at most curveOrder/2 only when the low-s
    (homestead) rule is asked for. *)
Definition ValidateSignatureValues (v : byte) (r s : Z) (homestead : bool)
  : bool :=
  if (r <? 1) || (s <? 1) then false
  else if homestead && (secp256k1halfN <? s) then false
  else (r <? secp256k1N) && (s <? secp256k1N)
       && (Byte.eqb v x00 || Byte.eqb v x01).

(** The length of a [common.Address]. *)
Definition AddressLength : nat := 20.

(** Modelled from the spec: [common.BytesToAddress] is go-ethereum's and not
    part of this repository; it keeps the last 20 bytes of a longer slice and
    left-pads a shorter one into the 20-byte address. *)
Definition BytesToAddress (b : list byte) : list byte :=
  let b := if (AddressLength <? length b)%nat
           then skipn (length b - AddressLength) b else b in
  repeat x00 (AddressLength - length b) ++ b.

(** ** The source file *)

Fixpoint allZero (b : list byte) : bool :=
  match b with
  | [] => true
  | byte :: rest => if negb (Byte.eqb byte x00) then false else allZero rest
  end.

Definition ecRecoverInputLength : nat := 128.

Section Precompile.

(** The two cryptographic primitives, [crypto.Ecrecover] and
    [crypto.Keccak256], are taken as given. *)
Variable Ecrecover : list byte -> list byte -> list byte * error.
Variable Keccak256 : list byte -> list byte.

(** The result is a pair of the output slice ([[]] for nil) and the error.
    [append(input[64:128], v)] is the 64 bytes followed by [v]; that it may
    write [v] into the caller's array past byte 127 is not part of the value
    returned and is left out. 27 is [x1b]. *)
Definition PrecompiledEcRecover (input : list byte)
  : run (list byte * error) :=
  let input := RightPadBytes input ecRecoverInputLength in
  rb <- sub input 64 96 ;;
  let r := SetBytes rb in
  sb <- sub input 96 128 ;;
  let s := SetBytes sb in
  b63 <- at_ input 63 ;;
  let v := byte_sub b63 x1b in
  pad <- sub input 32 63 ;;
  if negb (allZero pad) || negb (ValidateSignatureValues v r s false)
  then Returns ([], None)
  else
    hash <- sub input 0 32 ;;
    rs <- sub input 64 128 ;;
    let (pubKey, err) := Ecrecover hash (rs ++ [v]) in
    match err with
    | Some _ => Returns ([], None)
    | None =>
        coords <- sub_from pubKey 1 ;;
        low <- sub_from (Keccak256 coords) 12 ;;
        Returns (LeftPadBytes low 32, None)
    end.

(** [Hash] is a [common.Hash], an array of 32 bytes: the theorems take a list
    of that length. [VRS] comes with its capacity, which is what [VRS[1:65]]
    is checked against. *)
Definition EcRecover (Hash : list byte) (VRS : slice)
  : run (list byte * error) :=
  let input := repeat x00 128 in
  v <- index VRS 0 ;;
  input <- store input 63 v ;;
  dst <- sub input 0 32 ;;
  src <- sub Hash 0 32 ;;
  let input := splice input 0 32 (Go.copy dst src) in
  dst <- sub input 64 128 ;;
  src <- reslice VRS 1 65 ;;
  let input := splice input 64 128 (Go.copy dst src) in
  res <- PrecompiledEcRecover input ;;
  let (output, err) := res in
  match err with
  | Some e => Returns (repeat x00 AddressLength, Some e)
  | None =>
      addr <- sub output 12 32 ;;
      Returns (BytesToAddress addr, None)
  end.

End Precompile.

(** ** The 128-byte view and its fields, in the specification's words *)

(** The normalized view: a shorter input right-padded with zeros to 128
    bytes, a longer one cut to its first 128 bytes. *)
Definition normalized (input : list byte) : list byte :=
  if (length input <? 128)%nat
  then input ++ repeat x00 (128 - length input)
  else firstn 128 input.

Definition field_hash (w : list byte) : list byte := firstn 32 w.
Definition field_padding (w : list byte) : list byte := firstn 31 (skipn 32 w).
Definition field_v (w : list byte) : byte := nth 63 w x00.
Definition field_r (w : list byte) : list byte := firstn 32 (skipn 64 w).
Definition field_s (w : list byte) : list byte := firstn 32 (skipn 96 w).

Definition recovery_id (w : list byte) : byte := byte_sub (field_v w) x1b.

(** The validation gate of section 4.1. *)
Definition validation_gate (w : list byte) : bool :=
  allZero (field_padding w)
  && ValidateSignatureValues (recovery_id w)
       (SetBytes (field_r w)) (SetBytes (field_s w)) false.

(** The signature handed to the recovery primitive: r, s, recovery id. *)
Definition signature_of (w : list byte) : list byte :=
  field_r w ++ field_s w ++ [recovery_id w].

(** The last [n] bytes of a slice. *)
Definition last_bytes (n : nat) (l : list byte) : list byte :=
  skipn (length l - n) l.

(** The layout [EcRecover] is meant to build from a hash and a compact
    signature v, r, s. *)
Definition packed (Hash VRS : list byte) : list byte :=
  Hash ++ repeat x00 31 ++ firstn 1 VRS ++ firstn 64 (skipn 1 VRS).

Section Stages.

Variable Ecrecover : list byte -> list byte -> list byte * error.
Variable Keccak256 : list byte -> list byte.

(** The part of [PrecompiledEcRecover] after the validation gate, on the
    view [w]. *)
Definition recover (w : list byte) : run (list byte * error) :=
  let (pubKey, err) := Ecrecover (field_hash w) (signature_of w) in
  match err with
  | Some _ => Returns ([], None)
  | None =>
      coords <- sub_from pubKey 1 ;;
      low <- sub_from (Keccak256 coords) 12 ;;
      Returns (LeftPadBytes low 32, None)
  end.

(** The address section 4.1 derives from a recovered public key. *)
Definition address_of (pubKey : list byte) : list byte :=
  repeat x00 12 ++ last_bytes 20 (Keccak256 (skipn 1 pubKey)).

End Stages.

(** The part of [EcRecover] after the call of [PrecompiledEcRecover]. *)
Definition unpack (res : run (list byte * error)) : run (list byte * error) :=
  res <- res ;;
  let (output, err) := res in
  match err with
  | Some e => Returns (repeat x00 AddressLength, Some e)
  | None =>
      addr <- sub output 12 32 ;;
      Returns (BytesToAddress addr, None)
  end.

(** ** Stand-ins for the two primitives, to run the model on concrete inputs *)

(** Succeeds exactly on a 65-byte signature whose recovery id is 0, with an
    uncompressed-point marker followed by the 64 bytes of r and s. *)
Definition stub_Ecrecover (hash sig : list byte) : list byte * error :=
  match nth_error sig 64 with
  | Some id =>
      if Byte.eqb id x00 then (x04 :: firstn 64 sig, None)
      else ([], Some "recovery failed"%string)
  | None => ([], Some "invalid signature length"%string)
  end.

(** The first 32 bytes of the data, zero-padded: a 32-byte digest. *)
Definition stub_Keccak256 (data : list byte) : list byte :=
  firstn 32 (data ++ repeat x00 32).

(** Concrete inputs. [be_bytes n z] is the [n]-byte big-endian encoding. *)
Fixpoint be_bytes (n : nat) (z : Z) : list byte :=
  match n with
  | O => []
  | S n => be_bytes n (z / 256) ++ [byte.of_Z z]
  end.

Definition sample_hash : list byte :=
  be_bytes 32
    0x9c22ff5f21f0b81b113e63f7db6da94fedef11b2119b4088b89664fb9a3cb658.
Definition sample_r : list byte :=
  be_bytes 32
    0x79be667ef9dcbbac55a06295ce870b07029bfcdb2dce28d959f2815b16f81798.
Definition sample_low_s : list byte :=
  be_bytes 32 0x2a.
Definition sample_high_s : list byte :=
  be_bytes 32 (secp256k1N - 1).

(** hash, 31 zero bytes, v, r, s *)
Definition sample_input (v : byte) (r s : list byte) : list byte :=
  sample_hash ++ repeat x00 31 ++ [v] ++ r ++ s.

(** A well-formed request with recovery id 0, and its compact signature. *)
Definition sample_valid : list byte := sample_input x1b sample_r sample_low_s.
Definition sample_vrs : list byte := x1b :: sample_r ++ sample_low_s.

(** The same request with a high s, with recovery id 1, with a non-zero
    byte at position 40, with r = 0, and with v = 0. *)
Definition sample_high : list byte := sample_input x1b sample_r sample_high_s.
Definition sample_vrs_id1 : list byte := x1c :: sample_r ++ sample_low_s.
Definition sample_bad_padding : list byte :=
  sample_hash ++ repeat x00 8 ++ [x01] ++ repeat x00 22
    ++ [x1b] ++ sample_r ++ sample_low_s.
Definition sample_zero_r : list byte :=
  sample_input x1b (be_bytes 32 0) sample_low_s.
Definition sample_zero_v : list byte := sample_input x00 sample_r sample_low_s.

(** A one-byte slice [[v]] cut from an array that holds a whole compact
    signature: the 64 bytes of r and s are spare capacity. *)
Definition sample_short_vrs : slice := mkSlice [x1b] (sample_r ++ sample_low_s).

(** A request cut after r: the 32 bytes of s are missing. *)
Definition sample_truncated : list byte :=
  sample_hash ++ repeat x00 31 ++ [x1b] ++ sample_r.

(** A second stand-in for the recovery primitive: it is [stub_Ecrecover] on a
    32-byte hash and a 65-byte signature, and reports a one-byte key with no
    error on anything else. *)
Definition stub_Ecrecover_loose (hash sig : list byte) : list byte * error :=
  if (length hash =? 32)%nat && (length sig =? 65)%nat
  then stub_Ecrecover hash sig
  else ([x00], None).

(** ** Slicing within bounds *)

Lemma sub_ok (l : list byte) (lo hi : nat) :
  (lo <= hi)%nat -> (hi <= length l)%nat ->
  sub l lo hi = Returns (firstn (hi - lo) (skipn lo l)).
Proof.
  intros Hlo Hhi. unfold sub, reslice, cap, whole; cbn [elems spare].
  rewrite app_nil_r, Nat.add_0_r.
  apply Nat.leb_le in Hlo. apply Nat.leb_le in Hhi.
  now rewrite Hlo, Hhi.
Qed.

Lemma sub_out_of_bounds (l : list byte) (lo hi : nat) :
  (length l < hi)%nat -> sub l lo hi = Panics SliceBoundsOutOfRange.
Proof.
  intros H. unfold sub, reslice, cap, whole; cbn [elems spare].
  rewrite Nat.add_0_r.
  apply Nat.leb_gt in H. rewrite H. now rewrite andb_false_r.
Qed.

Lemma at_ok (l : list byte) (i : nat) :
  (i < length l)%nat -> at_ l i = Returns (nth i l x00).
Proof.
  intros H. unfold at_, index, whole; cbn [elems].
  now rewrite (nth_error_nth' l x00 H).
Qed.

Lemma sub_from_ok (l : list byte) (lo : nat) :
  (lo <= length l)%nat -> sub_from l lo = Returns (skipn lo l).
Proof.
  intros H. unfold sub_from, reslice_from, len, whole; cbn [elems].
  apply Nat.leb_le in H. now rewrite H.
Qed.

(** A window below [n] reads the same from a list and from its first [n]
    elements. *)
Lemma window_firstn (n lo hi : nat) (l : list byte) :
  (hi <= n)%nat ->
  firstn (hi - lo) (skipn lo (firstn n l)) = firstn (hi - lo) (skipn lo l).
Proof.
  intros H. rewrite skipn_firstn_comm, firstn_firstn.
  f_equal. lia.
Qed.

Lemma nth_firstn_below (n i : nat) (l : list byte) :
  (i < n)%nat -> nth i (firstn n l) x00 = nth i l x00.
Proof.
  revert i l. induction n as [|n IH]; intros i l H; [lia|].
  destruct l as [|a l]; [reflexivity|].
  destruct i as [|i]; [reflexivity|]. cbn. apply IH. lia.
Qed.

(** ** Right padding *)

Lemma skipn_zeros (n m : nat) :
  skipn n (repeat x00 m) = repeat x00 (m - n).
Proof.
  revert m. induction n as [|n IH]; intros m.
  - now rewrite Nat.sub_0_r.
  - destruct m as [|m]; [reflexivity|]. cbn. apply IH.
Qed.

Lemma RightPadBytes_length (x : list byte) (l : nat) :
  (l <= length (RightPadBytes x l))%nat.
Proof.
  unfold RightPadBytes, Go.copy.
  destruct (l <=? length x)%nat eqn:E.
  - now apply Nat.leb_le.
  - apply Nat.leb_gt in E.
    rewrite length_app, length_firstn, length_skipn, !repeat_length. lia.
Qed.

Lemma RightPadBytes_normalized (x : list byte) :
  firstn 128 (RightPadBytes x ecRecoverInputLength) = normalized x.
Proof.
  unfold RightPadBytes, normalized, Go.copy, ecRecoverInputLength.
  rewrite repeat_length.
  destruct (128 <=? length x)%nat eqn:E.
  - apply Nat.leb_le in E.
    assert ((length x <? 128)%nat = false) as -> by (apply Nat.ltb_ge; lia).
    reflexivity.
  - apply Nat.leb_gt in E.
    assert ((length x <? 128)%nat = true) as -> by (apply Nat.ltb_lt; lia).
    rewrite (firstn_all2 (n := 128) x) by lia.
    rewrite skipn_zeros.
    apply firstn_all2. rewrite length_app, repeat_length. lia.
Qed.

Lemma normalized_length (x : list byte) : length (normalized x) = 128%nat.
Proof.
  unfold normalized. destruct (length x <? 128)%nat eqn:E.
  - apply Nat.ltb_lt in E. rewrite length_app, repeat_length. lia.
  - apply Nat.ltb_ge in E. rewrite length_firstn. lia.
Qed.

Lemma normalized_idem (x : list byte) :
  normalized (normalized x) = normalized x.
Proof.
  unfold normalized at 1. rewrite normalized_length. cbn [Nat.ltb Nat.leb].
  apply firstn_all2. rewrite normalized_length. lia.
Qed.

Lemma firstn_plus (a b : nat) (l : list byte) :
  firstn (a + b) l = firstn a l ++ firstn b (skipn a l).
Proof.
  revert l. induction a as [|a IH]; intros l; [reflexivity|].
  destruct l as [|x l]; cbn.
  - now rewrite firstn_nil.
  - now rewrite IH.
Qed.

Lemma rs_window (w : list byte) :
  firstn 64 (skipn 64 w) = field_r w ++ field_s w.
Proof.
  unfold field_r, field_s.
  change 64%nat with (32 + 32)%nat at 1. rewrite firstn_plus, skipn_skipn.
  reflexivity.
Qed.

(** ** [PrecompiledEcRecover] read on the normalized view *)

Section PrecompileFacts.

Variable Ecrecover : list byte -> list byte -> list byte * error.
Variable Keccak256 : list byte -> list byte.

Lemma PrecompiledEcRecover_on_view (input : list byte) :
  PrecompiledEcRecover Ecrecover Keccak256 input =
  if validation_gate (normalized input)
  then recover Ecrecover Keccak256 (normalized input)
  else Returns ([], None).
Proof.
  unfold PrecompiledEcRecover.
  pose proof (RightPadBytes_length input ecRecoverInputLength) as Hlen.
  pose proof (RightPadBytes_normalized input) as Hview.
  set (p := RightPadBytes input ecRecoverInputLength) in *.
  unfold ecRecoverInputLength in Hlen.
  rewrite (sub_ok p 64 96) by lia; cbn [bind].
  rewrite (sub_ok p 96 128) by lia; cbn [bind].
  rewrite (at_ok p 63) by lia; cbn [bind].
  rewrite (sub_ok p 32 63) by lia; cbn [bind].
  rewrite (sub_ok p 0 32) by lia; cbn [bind].
  rewrite (sub_ok p 64 128) by lia; cbn [bind].
  rewrite <- (window_firstn 128 64 96 p), <- (window_firstn 128 96 128 p),
    <- (window_firstn 128 32 63 p), <- (window_firstn 128 0 32 p),
    <- (window_firstn 128 64 128 p), <- (nth_firstn_below 128 63 p) by lia.
  rewrite Hview. set (w := normalized input).
  change (96 - 64)%nat with 32%nat. change (128 - 96)%nat with 32%nat.
  change (63 - 32)%nat with 31%nat. change (32 - 0)%nat with 32%nat.
  change (128 - 64)%nat with 64%nat. change (skipn 0 w) with w.
  rewrite rs_window, <- app_assoc.
  unfold validation_gate, recover, signature_of, recovery_id, field_hash,
    field_padding, field_v.
  fold (field_r w) (field_s w).
  destruct (allZero (firstn 31 (skipn 32 w))); [|reflexivity].
  destruct (ValidateSignatureValues _ _ _ false); reflexivity.
Qed.

End PrecompileFacts.

(** ** The zero test *)

Lemma allZero_nth (b : list byte) :
  allZero b = true -> forall i, nth i b x00 = x00.
Proof.
  induction b as [|x rest IH]; intros H i.
  - now destruct i.
  - cbn [allZero] in H.
    destruct (Byte.eqb x x00) eqn:E; cbn [negb] in H; [|discriminate].
    apply Byte.byte_dec_bl in E. destruct i; cbn [nth]; auto.
Qed.

Lemma allZero_zeros (n : nat) : allZero (repeat x00 n) = true.
Proof.
  induction n as [|n IH]; [reflexivity|]. exact IH.
Qed.

(** ** The signature-range validator *)

Lemma secp256k1N_bounds : 1 < secp256k1N /\ 0 < secp256k1halfN < secp256k1N.
Proof. vm_compute. repeat split. Qed.

Lemma ValidateSignatureValues_frontier (v : byte) (r s : Z) :
  ValidateSignatureValues v r s false = true <->
  0 < r < secp256k1N /\ 0 < s < secp256k1N /\ (v = x00 \/ v = x01).
Proof.
  unfold ValidateSignatureValues. cbn [andb].
  destruct ((r <? 1) || (s <? 1)) eqn:E.
  - split; [discriminate|]. intros (Hr & Hs & _).
    apply orb_true_iff in E. rewrite !Z.ltb_lt in E. lia.
  - apply orb_false_iff in E as [Er Es]. apply Z.ltb_ge in Er, Es.
    rewrite !andb_true_iff, orb_true_iff, !Z.ltb_lt. split.
    + intros [[Hr Hs] Hv]. repeat split; try lia.
      destruct Hv as [Hv|Hv]; apply Byte.byte_dec_bl in Hv; auto.
    + intros (Hr & Hs & Hv). repeat split; try lia.
      destruct Hv as [->| ->]; [left|right]; reflexivity.
Qed.

Lemma ValidateSignatureValues_homestead (v : byte) (r s : Z) :
  secp256k1halfN < s -> ValidateSignatureValues v r s true = false.
Proof.
  intros H. unfold ValidateSignatureValues.
  destruct ((r <? 1) || (s <? 1)); [reflexivity|].
  apply Z.ltb_lt in H. now rewrite H.
Qed.

(** ** The recovery id: a byte subtraction *)

Lemma byte_sub_unsigned (a b : byte) :
  byte.unsigned (byte_sub a b) = (byte.unsigned a - byte.unsigned b) mod 256.
Proof. unfold byte_sub. now rewrite byte.unsigned_of_Z. Qed.

Lemma recovery_id_0 (b : byte) : byte_sub b x1b = x00 <-> b = x1b.
Proof.
  split; [|now intros ->].
  intros H. apply byte.unsigned_inj.
  pose proof (byte_sub_unsigned b x1b) as E. rewrite H in E.
  pose proof (byte.unsigned_range b) as R.
  change (byte.unsigned x00) with 0 in E.
  change (byte.unsigned x1b) with 27 in *. change (2 ^ 8) with 256 in R.
  revert E. generalize (byte.unsigned b) R. clear. intros z R E.
  apply eq_sym, Z.mod_divide in E; [|lia]. destruct E as [k E]. lia.
Qed.

Lemma recovery_id_1 (b : byte) : byte_sub b x1b = x01 <-> b = x1c.
Proof.
  split; [|now intros ->].
  intros H. apply byte.unsigned_inj.
  pose proof (byte_sub_unsigned b x1b) as E. rewrite H in E.
  pose proof (byte.unsigned_range b) as R.
  change (byte.unsigned x01) with 1 in E.
  change (byte.unsigned x1b) with 27 in E.
  change (byte.unsigned x1c) with 28. change (2 ^ 8) with 256 in R.
  revert E. generalize (byte.unsigned b) R. clear. intros z R E.
  assert ((z - 28) mod 256 = 0) as D.
  { replace (z - 28) with ((z - 27) + (-1)) by lia.
    rewrite Z.add_mod, <- E by lia. reflexivity. }
  apply Z.mod_divide in D; [|lia]. destruct D as [k D]. lia.
Qed.

(** ** The validation gate, field by field *)

Lemma validation_gate_true_iff (w : list byte) :
  validation_gate w = true <->
  allZero (field_padding w) = true
  /\ 0 < SetBytes (field_r w) < secp256k1N
  /\ 0 < SetBytes (field_s w) < secp256k1N
  /\ (field_v w = x1b \/ field_v w = x1c).
Proof.
  unfold validation_gate, recovery_id.
  rewrite andb_true_iff, ValidateSignatureValues_frontier,
    recovery_id_0, recovery_id_1.
  tauto.
Qed.

Lemma padding_nth (w : list byte) (i : nat) :
  (32 <= i < 63)%nat -> nth (i - 32) (field_padding w) x00 = nth i w x00.
Proof.
  intros H. unfold field_padding.
  rewrite nth_firstn_below, nth_skipn by lia. f_equal. lia.
Qed.

Section PrecompileProperties.

Variable Ecrecover : list byte -> list byte -> list byte * error.
Variable Keccak256 : list byte -> list byte.

Lemma validation_gate_closed (input : list byte) :
  validation_gate (normalized input) = false ->
  PrecompiledEcRecover Ecrecover Keccak256 input = Returns ([], None).
Proof.
  intros H. now rewrite PrecompiledEcRecover_on_view, H.
Qed.

Lemma validation_gate_open (input : list byte) :
  validation_gate (normalized input) = true ->
  PrecompiledEcRecover Ecrecover Keccak256 input =
  recover Ecrecover Keccak256 (normalized input).
Proof.
  intros H. now rewrite PrecompiledEcRecover_on_view, H.
Qed.

Lemma recover_success (w pubKey : list byte) :
  Ecrecover (field_hash w) (signature_of w) = (pubKey, None) ->
  length pubKey = 65%nat ->
  length (Keccak256 (skipn 1 pubKey)) = 32%nat ->
  recover Ecrecover Keccak256 w =
  Returns (address_of Keccak256 pubKey, None).
Proof.
  intros HE Hpk Hd. unfold recover. rewrite HE.
  rewrite sub_from_ok by lia; cbn [bind].
  rewrite sub_from_ok by lia; cbn [bind].
  unfold LeftPadBytes, address_of, last_bytes.
  rewrite length_skipn, Hd. reflexivity.
Qed.

Lemma recover_failure (w : list byte) :
  snd (Ecrecover (field_hash w) (signature_of w)) <> None ->
  recover Ecrecover Keccak256 w = Returns ([], None).
Proof.
  unfold recover. destruct (Ecrecover _ _) as [pubKey [e|]]; cbn [snd].
  - reflexivity.
  - intros H. now elim H.
Qed.

Lemma address_of_length (pubKey : list byte) :
  length (Keccak256 (skipn 1 pubKey)) = 32%nat ->
  length (address_of Keccak256 pubKey) = 32%nat.
Proof.
  intros Hd. unfold address_of, last_bytes.
  rewrite length_app, repeat_length, length_skipn, Hd. reflexivity.
Qed.

(** C1: when the validation gate is passed on the normalized view and the
    recovery primitive, called with the hash [input[0:32]] and the signature
    r, s, recovery id (the 64 bytes [input[64:128]] followed by the
    recovery-id byte), succeeds with a 65-byte public key,
    [PrecompiledEcRecover] returns a nil error and the 32 bytes made of
    twelve zeros followed by the last 20 bytes of the Keccak-256 digest of
    the key without its first byte. *)
Theorem PrecompiledEcRecover_recovers (input pubKey : list byte) :
  validation_gate (normalized input) = true ->
  Ecrecover (firstn 32 (normalized input))
    (firstn 64 (skipn 64 (normalized input))
       ++ [byte_sub (nth 63 (normalized input) x00) x1b]) = (pubKey, None) ->
  length pubKey = 65%nat ->
  length (Keccak256 (skipn 1 pubKey)) = 32%nat ->
  PrecompiledEcRecover Ecrecover Keccak256 input =
    Returns (repeat x00 12 ++ last_bytes 20 (Keccak256 (skipn 1 pubKey)), None)
  /\ length (repeat x00 12 ++ last_bytes 20 (Keccak256 (skipn 1 pubKey)))
     = 32%nat
  /\ firstn 64 (skipn 64 (normalized input))
       ++ [byte_sub (nth 63 (normalized input) x00) x1b]
     = signature_of (normalized input)
  /\ length (signature_of (normalized input)) = 65%nat.
Proof.
  intros Hg HE Hpk Hd.
  assert (firstn 64 (skipn 64 (normalized input))
            ++ [byte_sub (nth 63 (normalized input) x00) x1b]
          = signature_of (normalized input)) as Hsig.
  { rewrite rs_window, <- app_assoc. reflexivity. }
  rewrite Hsig in HE. repeat split.
  - rewrite validation_gate_open by assumption.
    now apply recover_success.
  - now apply address_of_length.
  - exact Hsig.
  - rewrite <- Hsig, length_app, length_firstn, length_skipn, normalized_length.
    reflexivity.
Qed.

(** C2: a non-zero byte anywhere in positions 32 to 62 of the normalized
    view makes [PrecompiledEcRecover] return the nil output and a nil error,
    whatever the hash, v, r and s are. *)
Theorem PrecompiledEcRecover_rejects_padding (input : list byte) (i : nat) :
  (32 <= i < 63)%nat ->
  nth i (normalized input) x00 <> x00 ->
  PrecompiledEcRecover Ecrecover Keccak256 input = Returns ([], None).
Proof.
  intros Hi Hnz. apply validation_gate_closed.
  destruct (validation_gate (normalized input)) eqn:Hg; [|reflexivity].
  apply validation_gate_true_iff in Hg as (Hz & _).
  elim Hnz. rewrite <- padding_nth by assumption.
  now apply allZero_nth.
Qed.

(** C3: with r and s the big-endian integers of bytes 64..95 and 96..127 of
    the normalized view, each of r = 0, s = 0, r >= curve order and
    s >= curve order alone makes [PrecompiledEcRecover] return the nil output
    and a nil error. *)
Theorem PrecompiledEcRecover_rejects_range (input : list byte) :
  SetBytes (firstn 32 (skipn 64 (normalized input))) = 0
  \/ SetBytes (firstn 32 (skipn 96 (normalized input))) = 0
  \/ secp256k1N <= SetBytes (firstn 32 (skipn 64 (normalized input)))
  \/ secp256k1N <= SetBytes (firstn 32 (skipn 96 (normalized input))) ->
  PrecompiledEcRecover Ecrecover Keccak256 input = Returns ([], None).
Proof.
  intros H. apply validation_gate_closed.
  destruct (validation_gate (normalized input)) eqn:Hg; [|reflexivity].
  apply validation_gate_true_iff in Hg as (_ & Hr & Hs & _).
  unfold field_r, field_s in Hr, Hs. lia.
Qed.

(** C4: the recovery id is the byte difference [input[63] - 27] modulo 256
    (229 for [input[63] = 0]); when [input[63]] is neither 27 nor 28 it is
    neither 0 nor 1, the validator refuses it whatever r and s are, and
    [PrecompiledEcRecover] returns the nil output and a nil error. *)
Theorem PrecompiledEcRecover_rejects_v (input : list byte) :
  nth 63 (normalized input) x00 <> x1b ->
  nth 63 (normalized input) x00 <> x1c ->
  PrecompiledEcRecover Ecrecover Keccak256 input = Returns ([], None)
  /\ byte.unsigned (recovery_id (normalized input))
     = (byte.unsigned (nth 63 (normalized input) x00) - 27) mod 256
  /\ recovery_id (normalized input) <> x00
  /\ recovery_id (normalized input) <> x01
  /\ (forall id r s homestead,
        id <> x00 -> id <> x01 ->
        ValidateSignatureValues id r s homestead = false)
  /\ byte.unsigned (byte_sub x00 x1b) = 229.
Proof.
  intros H27 H28.
  assert (recovery_id (normalized input) <> x00) as N0.
  { unfold recovery_id, field_v. now rewrite recovery_id_0. }
  assert (recovery_id (normalized input) <> x01) as N1.
  { unfold recovery_id, field_v. now rewrite recovery_id_1. }
  repeat split; try assumption.
  - apply validation_gate_closed.
    destruct (validation_gate (normalized input)) eqn:Hg; [|reflexivity].
    apply validation_gate_true_iff in Hg as (_ & _ & _ & [Hv|Hv]); now elim Hv.
  - unfold recovery_id, field_v. apply byte_sub_unsigned.
  - intros id r s homestead I0 I1. unfold ValidateSignatureValues.
    destruct (Byte.eqb id x00) eqn:E0;
      [apply Byte.byte_dec_bl in E0; now elim I0|].
    destruct (Byte.eqb id x01) eqn:E1;
      [apply Byte.byte_dec_bl in E1; now elim I1|].
    rewrite andb_false_r.
    destruct ((r <? 1) || (s <? 1)); [reflexivity|].
    now destruct (homestead && (secp256k1halfN <? s)).
Qed.

(** C5: the validator is called with the low-s flag off. A signature with
    all-zero padding, recovery id 0 or 1, 0 < r < curve order and
    curve order / 2 < s < curve order passes the validator as called (and
    would fail it with the flag on), so the function goes on to the recovery
    primitive and, when that succeeds, returns the 32-byte address. *)
Theorem PrecompiledEcRecover_accepts_high_s (input : list byte) :
  allZero (field_padding (normalized input)) = true ->
  recovery_id (normalized input) = x00
  \/ recovery_id (normalized input) = x01 ->
  0 < SetBytes (field_r (normalized input)) < secp256k1N ->
  secp256k1N / 2 < SetBytes (field_s (normalized input)) < secp256k1N ->
  ValidateSignatureValues (recovery_id (normalized input))
    (SetBytes (field_r (normalized input)))
    (SetBytes (field_s (normalized input))) false = true
  /\ ValidateSignatureValues (recovery_id (normalized input))
       (SetBytes (field_r (normalized input)))
       (SetBytes (field_s (normalized input))) true = false
  /\ PrecompiledEcRecover Ecrecover Keccak256 input =
     recover Ecrecover Keccak256 (normalized input)
  /\ (forall pubKey,
        Ecrecover (field_hash (normalized input))
          (signature_of (normalized input)) = (pubKey, None) ->
        length pubKey = 65%nat ->
        length (Keccak256 (skipn 1 pubKey)) = 32%nat ->
        PrecompiledEcRecover Ecrecover Keccak256 input =
          Returns (address_of Keccak256 pubKey, None)
        /\ length (address_of Keccak256 pubKey) = 32%nat).
Proof.
  intros Hz Hv Hr Hs.
  pose proof secp256k1N_bounds as [HN Hhalf].
  fold secp256k1halfN in Hs.
  assert (ValidateSignatureValues (recovery_id (normalized input))
            (SetBytes (field_r (normalized input)))
            (SetBytes (field_s (normalized input))) false = true) as Hok.
  { apply ValidateSignatureValues_frontier. repeat split; try lia. exact Hv. }
  assert (validation_gate (normalized input) = true) as Hg.
  { unfold validation_gate. now rewrite Hz, Hok. }
  repeat split.
  - exact Hok.
  - apply ValidateSignatureValues_homestead. lia.
  - now apply validation_gate_open.
  - rewrite validation_gate_open by assumption. now apply recover_success.
  - now apply address_of_length.
Qed.

(** C6: [PrecompiledEcRecover] gives on every input what it gives on the
    normalized view of that input: on an input shorter than 128 bytes what
    it gives on the input right-padded with zeros to 128 bytes, on a longer
    one what it gives on the first 128 bytes, so inputs that agree there have
    the same result; an input of 64 bytes (or fewer) is rejected with the nil
    output and no panic. *)
Theorem PrecompiledEcRecover_normalized (input : list byte) :
  PrecompiledEcRecover Ecrecover Keccak256 input =
    PrecompiledEcRecover Ecrecover Keccak256 (normalized input)
  /\ ((length input < 128)%nat ->
      PrecompiledEcRecover Ecrecover Keccak256 input =
      PrecompiledEcRecover Ecrecover Keccak256
        (input ++ repeat x00 (128 - length input)))
  /\ ((128 <= length input)%nat ->
      PrecompiledEcRecover Ecrecover Keccak256 input =
      PrecompiledEcRecover Ecrecover Keccak256 (firstn 128 input))
  /\ (forall other,
        (128 <= length input)%nat -> (128 <= length other)%nat ->
        firstn 128 input = firstn 128 other ->
        PrecompiledEcRecover Ecrecover Keccak256 input =
        PrecompiledEcRecover Ecrecover Keccak256 other)
  /\ ((length input <= 64)%nat ->
      PrecompiledEcRecover Ecrecover Keccak256 input = Returns ([], None)).
Proof.
  assert (PrecompiledEcRecover Ecrecover Keccak256 input =
          PrecompiledEcRecover Ecrecover Keccak256 (normalized input)) as Hn.
  { now rewrite (PrecompiledEcRecover_on_view _ _ (normalized input)),
      normalized_idem, PrecompiledEcRecover_on_view. }
  repeat split.
  - exact Hn.
  - intros Hlt. rewrite Hn. unfold normalized.
    apply Nat.ltb_lt in Hlt. now rewrite Hlt.
  - intros Hge. rewrite Hn. unfold normalized.
    apply Nat.ltb_ge in Hge. now rewrite Hge.
  - intros other Hi Ho Heq.
    rewrite !(PrecompiledEcRecover_on_view _ _ input),
      !(PrecompiledEcRecover_on_view _ _ other).
    unfold normalized.
    apply Nat.ltb_ge in Hi, Ho. now rewrite Hi, Ho, Heq.
  - intros Hle. apply validation_gate_closed.
    destruct (validation_gate (normalized input)) eqn:Hg; [|reflexivity].
    apply validation_gate_true_iff in Hg as (_ & Hr & _).
    unfold normalized, field_r in Hr.
    assert ((length input <? 128)%nat = true) as E by (apply Nat.ltb_lt; lia).
    rewrite E, skipn_app, skipn_zeros, (skipn_all2 input) in Hr by lia.
    replace (128 - length input - (64 - length input))%nat with 64%nat in Hr
      by lia.
    vm_compute in Hr. destruct Hr as [Hr _]. discriminate.
Qed.

(** C10: given a recovery primitive whose successes are 65-byte keys and a
    32-byte digest function, [PrecompiledEcRecover] returns on every input,
    always with a nil error, and its output is either nil or exactly 32 bytes;
    it is nil exactly when the validation gate refuses the view or the recovery
    primitive fails, in particular on bad padding, on r or s out of range, on
    a recovery id other than 0 and 1. *)
Theorem PrecompiledEcRecover_output (input : list byte) :
  (forall hash sig pubKey,
      Ecrecover hash sig = (pubKey, None) -> length pubKey = 65%nat) ->
  (forall data, length (Keccak256 data) = 32%nat) ->
  exists output,
    PrecompiledEcRecover Ecrecover Keccak256 input = Returns (output, None)
    /\ (output = [] \/ length output = 32%nat)
    /\ (output = [] <->
        validation_gate (normalized input) = false
        \/ snd (Ecrecover (field_hash (normalized input))
                  (signature_of (normalized input))) <> None)
    /\ (allZero (field_padding (normalized input)) = false -> output = [])
    /\ (~ 0 < SetBytes (field_r (normalized input)) < secp256k1N
        \/ ~ 0 < SetBytes (field_s (normalized input)) < secp256k1N ->
        output = [])
    /\ (field_v (normalized input) <> x1b
        /\ field_v (normalized input) <> x1c -> output = []).
Proof.
  intros Hkey Hdigest.
  set (w := normalized input).
  assert (forall output : list byte,
             (output = [] <-> validation_gate w = false
                \/ snd (Ecrecover (field_hash w) (signature_of w)) <> None) ->
             (allZero (field_padding w) = false -> output = [])
             /\ (~ 0 < SetBytes (field_r w) < secp256k1N
                 \/ ~ 0 < SetBytes (field_s w) < secp256k1N -> output = [])
             /\ (field_v w <> x1b /\ field_v w <> x1c -> output = []))
    as Hcases.
  { intros output Hiff. repeat split; intros H; apply Hiff; left;
      (destruct (validation_gate w) eqn:Hg; [|reflexivity]);
      apply validation_gate_true_iff in Hg as (Hz & Hr & Hs & Hv).
    - congruence.
    - tauto.
    - tauto. }
  destruct (validation_gate w) eqn:Hg.
  - destruct (Ecrecover (field_hash w) (signature_of w))
      as [pubKey [e|]] eqn:HE.
    + exists []. split; [|split; [|split]].
      * subst w. rewrite validation_gate_open by assumption.
        apply recover_failure. now rewrite HE.
      * now left.
      * split; [|reflexivity]. intros _. right. cbn. discriminate.
      * apply Hcases. split; [|reflexivity].
        intros _. right. cbn. discriminate.
    + exists (address_of Keccak256 pubKey).
      assert (length (address_of Keccak256 pubKey) = 32%nat) as Hlen
        by (apply address_of_length, Hdigest).
      assert (address_of Keccak256 pubKey = [] <->
              true = false \/ snd (pubKey, @None string) <> None) as Hiff.
      { split.
        - intros E. rewrite E in Hlen. discriminate.
        - intros [E|E]; [discriminate|now elim E]. }
      split; [|split; [|split]].
      * subst w. rewrite validation_gate_open by assumption.
        apply recover_success;
          [assumption|now apply (Hkey _ _ _ HE)|apply Hdigest].
      * now right.
      * exact Hiff.
      * apply Hcases. exact Hiff.
  - exists []. split; [|split; [|split]].
    + now apply validation_gate_closed.
    + now left.
    + split; [|reflexivity]. intros _. now left.
    + apply Hcases. split; [|reflexivity]. intros _. now left.
Qed.

End PrecompileProperties.

(** ** [EcRecover]: packing, delegation, unpacking *)

Lemma copy_exact (dst src : list byte) :
  length src = length dst -> Go.copy dst src = src.
Proof.
  intros H. unfold Go.copy.
  now rewrite <- H, firstn_all, skipn_all2, app_nil_r by lia.
Qed.

Lemma reslice_ok (s : slice) (lo hi : nat) :
  (lo <= hi)%nat -> (hi <= cap s)%nat ->
  reslice s lo hi = Returns (firstn (hi - lo) (skipn lo (elems s ++ spare s))).
Proof.
  intros Hlo Hhi. unfold reslice.
  apply Nat.leb_le in Hlo. apply Nat.leb_le in Hhi.
  now rewrite Hlo, Hhi.
Qed.

Lemma reslice_out_of_bounds (s : slice) (lo hi : nat) :
  (cap s < hi)%nat -> reslice s lo hi = Panics SliceBoundsOutOfRange.
Proof.
  intros H. unfold reslice.
  apply Nat.leb_gt in H. rewrite H. now rewrite andb_false_r.
Qed.

(** The packed layout reads only the first 65 bytes of the signature. *)
Lemma packed_backing (Hash l extra : list byte) :
  (65 <= length l)%nat -> packed Hash (l ++ extra) = packed Hash l.
Proof.
  intros H. unfold packed.
  rewrite skipn_app, !firstn_app, length_skipn.
  replace (1 - length l)%nat with 0%nat by lia.
  replace (64 - (length l - 1))%nat with 0%nat by lia.
  cbn [skipn firstn]. now rewrite !app_nil_r.
Qed.

Lemma packed_firstn (Hash l : list byte) :
  packed Hash (firstn 65 l) = packed Hash l.
Proof.
  unfold packed. rewrite firstn_firstn.
  change 64%nat with (65 - 1)%nat. now rewrite (window_firstn 65 1 65).
Qed.

Lemma packed_fields (Hash l : list byte) :
  length Hash = 32%nat -> (65 <= length l)%nat ->
  length (packed Hash l) = 128%nat
  /\ field_hash (packed Hash l) = Hash
  /\ field_padding (packed Hash l) = repeat x00 31
  /\ nth_error (packed Hash l) 63 = nth_error l 0
  /\ skipn 64 (packed Hash l) = firstn 64 (skipn 1 l).
Proof.
  intros HH Hl. unfold packed, field_hash, field_padding.
  destruct l as [|v rest]; [cbn in Hl; lia|].
  assert (length (firstn 64 (skipn 1 (v :: rest))) = 64%nat) as Hrs.
  { rewrite length_firstn, length_skipn. cbn [length] in *. lia. }
  set (rs := firstn 64 (skipn 1 (v :: rest))) in *. clearbody rs.
  do 32 (destruct Hash as [|? Hash]; [discriminate HH|]).
  destruct Hash; [|discriminate HH].
  repeat split. cbn [firstn app repeat length]. now rewrite Hrs.
Qed.

Lemma normalized_full (l : list byte) :
  length l = 128%nat -> normalized l = l.
Proof.
  intros H. unfold normalized. rewrite H. cbn [Nat.ltb Nat.leb].
  apply firstn_all2. lia.
Qed.

Section AdapterFacts.

Variable Ecrecover : list byte -> list byte -> list byte * error.
Variable Keccak256 : list byte -> list byte.

(** With a non-empty signature buffer of capacity 65 or more, both accesses
    are in bounds and the call is made on the packed layout. *)
Lemma EcRecover_in_bounds (Hash : list byte) (VRS : slice) :
  length Hash = 32%nat -> (0 < len VRS)%nat -> (65 <= cap VRS)%nat ->
  EcRecover Ecrecover Keccak256 Hash VRS =
  unpack (PrecompiledEcRecover Ecrecover Keccak256
            (packed Hash (elems VRS ++ spare VRS))).
Proof.
  intros HH Hlen Hcap. unfold EcRecover.
  rewrite (reslice_ok VRS 1 65) by lia.
  assert (length (firstn (65 - 1) (skipn 1 (elems VRS ++ spare VRS))) = 64%nat)
    as Hsrc.
  { rewrite length_firstn, length_skipn, length_app. unfold cap in Hcap. lia. }
  change (65 - 1)%nat with 64%nat in *.
  unfold packed.
  set (src := firstn 64 (skipn 1 (elems VRS ++ spare VRS))) in *.
  clearbody src.
  destruct VRS as [[|v rest] extra]; [cbn in Hlen; lia|].
  cbn [index elems nth_error bind app firstn].
  do 32 (destruct Hash as [|? Hash]; [discriminate HH|]).
  destruct Hash; [|discriminate HH].
  do 64 (destruct src as [|? src]; [discriminate Hsrc|]).
  destruct src; [|discriminate Hsrc].
  clear. unfold unpack, packed.
  cbv [store sub reslice whole cap elems spare Go.copy splice bind
       repeat firstn skipn app length Nat.ltb Nat.leb Nat.add Nat.sub andb].
  reflexivity.
Qed.

(** The error of [PrecompiledEcRecover] is nil whenever it returns. *)
Lemma PrecompiledEcRecover_nil_error (input output : list byte) (err : error) :
  PrecompiledEcRecover Ecrecover Keccak256 input = Returns (output, err) ->
  err = None.
Proof.
  rewrite PrecompiledEcRecover_on_view.
  destruct (validation_gate _); [|congruence].
  unfold recover. destruct (Ecrecover _ _) as [pubKey [e|]]; [congruence|].
  destruct (sub_from pubKey 1); cbn [bind]; [|discriminate].
  destruct (sub_from _ 12); cbn [bind]; [|discriminate].
  congruence.
Qed.

(** [EcRecover] never returns an error. *)
Lemma EcRecover_nil_error (Hash : list byte) (VRS : slice)
      (address : list byte) (e : string) :
  EcRecover Ecrecover Keccak256 Hash VRS <> Returns (address, Some e).
Proof.
  unfold EcRecover.
  destruct (index VRS 0); cbn [bind]; [|discriminate].
  destruct (store _ 63 _); cbn [bind]; [|discriminate].
  destruct (sub _ 0 32); cbn [bind]; [|discriminate].
  destruct (sub Hash 0 32); cbn [bind]; [|discriminate].
  destruct (sub _ 64 128); cbn [bind]; [|discriminate].
  destruct (reslice VRS 1 65); cbn [bind]; [|discriminate].
  destruct (PrecompiledEcRecover _ _ _) as [[output err]|] eqn:HP;
    cbn [bind]; [|discriminate].
  apply PrecompiledEcRecover_nil_error in HP. subst err.
  destruct (sub output 12 32); cbn [bind]; discriminate.
Qed.

(** C7: for a 32-byte hash and a 65-byte signature, [EcRecover] calls
    [PrecompiledEcRecover] on the 128-byte buffer holding the hash in bytes
    0..31, zeros in bytes 32..62, the first signature byte at byte 63 and the
    other 64 signature bytes in bytes 64..127, and its result is that call's
    result unpacked; the padding test of the callee holds on that buffer. *)
Theorem EcRecover_delegates (Hash : list byte) (VRS : slice) :
  length Hash = 32%nat -> len VRS = 65%nat ->
  EcRecover Ecrecover Keccak256 Hash VRS =
    unpack (PrecompiledEcRecover Ecrecover Keccak256 (packed Hash (elems VRS)))
  /\ length (packed Hash (elems VRS)) = 128%nat
  /\ firstn 32 (packed Hash (elems VRS)) = Hash
  /\ firstn 31 (skipn 32 (packed Hash (elems VRS))) = repeat x00 31
  /\ nth_error (packed Hash (elems VRS)) 63 = nth_error (elems VRS) 0
  /\ skipn 64 (packed Hash (elems VRS)) = skipn 1 (elems VRS)
  /\ allZero (field_padding (normalized (packed Hash (elems VRS)))) = true.
Proof.
  intros HH Hlen. unfold len in Hlen.
  destruct (packed_fields Hash (elems VRS) HH) as (L & F1 & F2 & F3 & F4);
    [lia|].
  repeat split; try assumption.
  - rewrite EcRecover_in_bounds by (unfold len, cap; lia).
    now rewrite packed_backing by lia.
  - rewrite F4. apply firstn_all2. rewrite length_skipn. lia.
  - rewrite normalized_full by assumption.
    unfold field_padding in *. rewrite F2. apply allZero_zeros.
Qed.

(** C8: for a 32-byte hash and a 65-byte signature on whose packed buffer
    [PrecompiledEcRecover] returns the nil output (the validation gate
    refuses it or the recovery primitive fails), [EcRecover] panics on
    [output[12:32]], slice bounds out of range, instead of returning an
    error. *)
Theorem EcRecover_panics_on_nil_output (Hash : list byte) (VRS : slice) :
  length Hash = 32%nat -> len VRS = 65%nat ->
  (PrecompiledEcRecover Ecrecover Keccak256 (packed Hash (elems VRS))
     = Returns ([], None) ->
   EcRecover Ecrecover Keccak256 Hash VRS = Panics SliceBoundsOutOfRange)
  /\ (validation_gate (packed Hash (elems VRS)) = false ->
      EcRecover Ecrecover Keccak256 Hash VRS = Panics SliceBoundsOutOfRange)
  /\ (snd (Ecrecover (field_hash (packed Hash (elems VRS)))
             (signature_of (packed Hash (elems VRS)))) <> None ->
      EcRecover Ecrecover Keccak256 Hash VRS = Panics SliceBoundsOutOfRange).
Proof.
  intros HH Hlen. unfold len in Hlen.
  assert (PrecompiledEcRecover Ecrecover Keccak256 (packed Hash (elems VRS))
            = Returns ([], None) ->
          EcRecover Ecrecover Keccak256 Hash VRS
            = Panics SliceBoundsOutOfRange) as Hnil.
  { intros HP. rewrite EcRecover_in_bounds by (unfold len, cap; lia).
    rewrite packed_backing, HP by lia. reflexivity. }
  assert (normalized (packed Hash (elems VRS)) = packed Hash (elems VRS)) as Hn.
  { apply normalized_full. now apply packed_fields; [|lia]. }
  repeat split.
  - exact Hnil.
  - intros Hg. apply Hnil. rewrite PrecompiledEcRecover_on_view, Hn, Hg.
    reflexivity.
  - intros Hfail. apply Hnil. rewrite PrecompiledEcRecover_on_view, Hn.
    destruct (validation_gate _); [|reflexivity]. now apply recover_failure.
Qed.

(** C9, as the code has it: [EcRecover] checks no length and returns no error
    of its own. On an empty signature buffer [VRS[0]] panics, index out of
    range; on a non-empty one of capacity below 65 [VRS[1:65]] panics, slice
    bounds out of range; on one of 65 bytes, or longer, both accesses are in
    bounds and the first 65 bytes are packed, the rest ignored. *)
Theorem EcRecover_unguarded (Hash : list byte) (VRS : slice) :
  length Hash = 32%nat ->
  (len VRS = 0%nat ->
   EcRecover Ecrecover Keccak256 Hash VRS = Panics IndexOutOfRange)
  /\ ((0 < len VRS)%nat -> (cap VRS < 65)%nat ->
      EcRecover Ecrecover Keccak256 Hash VRS = Panics SliceBoundsOutOfRange)
  /\ ((65 <= len VRS)%nat ->
      EcRecover Ecrecover Keccak256 Hash VRS =
        unpack (PrecompiledEcRecover Ecrecover Keccak256
                  (packed Hash (firstn 65 (elems VRS))))
      /\ EcRecover Ecrecover Keccak256 Hash VRS =
         EcRecover Ecrecover Keccak256 Hash (whole (firstn 65 (elems VRS))))
  /\ (forall address e,
        EcRecover Ecrecover Keccak256 Hash VRS <> Returns (address, Some e)).
Proof.
  intros HH. split; [|split; [|split]].
  - unfold len. intros H0. destruct VRS as [[|v rest] extra];
      [reflexivity|discriminate H0].
  - intros Hpos Hcap. unfold EcRecover.
    rewrite (reslice_out_of_bounds VRS 1 65) by assumption.
    destruct VRS as [[|v rest] extra]; [cbn in Hpos; lia|].
    do 32 (destruct Hash as [|? Hash]; [discriminate HH|]).
    destruct Hash; [|discriminate HH].
    reflexivity.
  - intros Hlen. unfold len in Hlen.
    assert (EcRecover Ecrecover Keccak256 Hash VRS =
            unpack (PrecompiledEcRecover Ecrecover Keccak256
                      (packed Hash (firstn 65 (elems VRS))))) as Hrun.
    { rewrite EcRecover_in_bounds by (unfold len, cap; lia).
      now rewrite packed_backing, packed_firstn by lia. }
    split; [exact Hrun|]. rewrite Hrun.
    rewrite EcRecover_in_bounds.
    + cbn [whole elems spare]. now rewrite app_nil_r, packed_firstn.
    + exact HH.
    + unfold len, whole; cbn [elems]. rewrite length_firstn. lia.
    + unfold cap, whole; cbn [elems spare length]. rewrite length_firstn. lia.
  - apply EcRecover_nil_error.
Qed.

End AdapterFacts.

(** ** The theorems on concrete inputs *)

Lemma stub_Ecrecover_key_length (hash sig pubKey : list byte) :
  stub_Ecrecover hash sig = (pubKey, None) -> length pubKey = 65%nat.
Proof.
  unfold stub_Ecrecover. destruct (nth_error sig 64) as [id|] eqn:E;
    [|discriminate].
  destruct (Byte.eqb id x00); [|discriminate].
  intros H. apply (f_equal fst) in H. cbn [fst] in H. rewrite <- H.
  cbn [length]. rewrite length_firstn.
  assert (64 < length sig)%nat by (apply nth_error_Some; congruence). lia.
Qed.

Lemma stub_Keccak256_length (data : list byte) :
  length (stub_Keccak256 data) = 32%nat.
Proof.
  unfold stub_Keccak256. rewrite length_firstn, length_app, repeat_length. lia.
Qed.

Lemma PrecompiledEcRecover_recovers_on_sample :
  validation_gate (normalized sample_valid) = true
  /\ PrecompiledEcRecover stub_Ecrecover stub_Keccak256 sample_valid =
     Returns (repeat x00 12
                ++ last_bytes 20
                     (stub_Keccak256
                        (skipn 1 (x04 :: sample_r ++ sample_low_s))),
              None).
Proof.
  split; [vm_compute; reflexivity|].
  apply (PrecompiledEcRecover_recovers stub_Ecrecover stub_Keccak256
           sample_valid (x04 :: sample_r ++ sample_low_s));
    vm_compute; reflexivity.
Defined.

Lemma PrecompiledEcRecover_rejects_padding_on_sample :
  nth 40 (normalized sample_bad_padding) x00 <> x00
  /\ PrecompiledEcRecover stub_Ecrecover stub_Keccak256 sample_bad_padding =
     Returns ([], None).
Proof.
  split; [vm_compute; discriminate|].
  apply (PrecompiledEcRecover_rejects_padding stub_Ecrecover stub_Keccak256
           sample_bad_padding 40); [lia|vm_compute; discriminate].
Defined.

Lemma PrecompiledEcRecover_rejects_range_on_sample :
  SetBytes (firstn 32 (skipn 64 (normalized sample_zero_r))) = 0
  /\ PrecompiledEcRecover stub_Ecrecover stub_Keccak256 sample_zero_r =
     Returns ([], None).
Proof.
  split; [vm_compute; reflexivity|].
  apply (PrecompiledEcRecover_rejects_range stub_Ecrecover stub_Keccak256
           sample_zero_r).
  left. vm_compute. reflexivity.
Defined.

Lemma PrecompiledEcRecover_rejects_v_on_sample :
  nth 63 (normalized sample_zero_v) x00 = x00
  /\ recovery_id (normalized sample_zero_v) = xe5
  /\ PrecompiledEcRecover stub_Ecrecover stub_Keccak256 sample_zero_v =
     Returns ([], None).
Proof.
  split; [vm_compute; reflexivity|]. split; [vm_compute; reflexivity|].
  apply (PrecompiledEcRecover_rejects_v stub_Ecrecover stub_Keccak256
           sample_zero_v); vm_compute; discriminate.
Defined.

Lemma PrecompiledEcRecover_accepts_high_s_on_sample :
  secp256k1N / 2 < SetBytes (field_s (normalized sample_high)) < secp256k1N
  /\ PrecompiledEcRecover stub_Ecrecover stub_Keccak256 sample_high =
     recover stub_Ecrecover stub_Keccak256 (normalized sample_high)
  /\ PrecompiledEcRecover stub_Ecrecover stub_Keccak256 sample_high =
     Returns (address_of stub_Keccak256 (x04 :: sample_r ++ sample_high_s),
              None).
Proof.
  assert (secp256k1N / 2 < SetBytes (field_s (normalized sample_high))
          < secp256k1N) as Hs by (vm_compute; split; reflexivity).
  split; [exact Hs|].
  destruct (PrecompiledEcRecover_accepts_high_s stub_Ecrecover stub_Keccak256
              sample_high) as (_ & _ & Hrun & Hkey).
  - vm_compute; reflexivity.
  - left. vm_compute; reflexivity.
  - vm_compute; split; reflexivity.
  - exact Hs.
  - split; [exact Hrun|].
    apply Hkey; vm_compute; reflexivity.
Defined.

Lemma PrecompiledEcRecover_output_on_sample :
  exists output,
    PrecompiledEcRecover stub_Ecrecover stub_Keccak256 sample_valid =
      Returns (output, None)
    /\ (output = [] \/ length output = 32%nat).
Proof.
  destruct (PrecompiledEcRecover_output stub_Ecrecover stub_Keccak256
              sample_valid stub_Ecrecover_key_length stub_Keccak256_length)
    as (output & Hrun & Hlen & _).
  exists output. split; assumption.
Defined.

Lemma EcRecover_delegates_on_sample :
  EcRecover stub_Ecrecover stub_Keccak256 sample_hash (whole sample_vrs) =
    unpack (PrecompiledEcRecover stub_Ecrecover stub_Keccak256 sample_valid)
  /\ EcRecover stub_Ecrecover stub_Keccak256 sample_hash (whole sample_vrs) =
     Returns (last_bytes 20 (stub_Keccak256 (sample_r ++ sample_low_s)), None).
Proof.
  destruct (EcRecover_delegates stub_Ecrecover stub_Keccak256
              sample_hash (whole sample_vrs)) as (Hrun & _);
    [vm_compute; reflexivity | vm_compute; reflexivity |].
  split.
  - rewrite Hrun. vm_compute. reflexivity.
  - rewrite Hrun. vm_compute. reflexivity.
Defined.

Lemma EcRecover_panics_on_sample :
  EcRecover stub_Ecrecover stub_Keccak256 sample_hash (whole sample_vrs_id1) =
    Panics SliceBoundsOutOfRange.
Proof.
  destruct (EcRecover_panics_on_nil_output stub_Ecrecover stub_Keccak256
              sample_hash (whole sample_vrs_id1)) as (_ & _ & Hfail);
    [vm_compute; reflexivity | vm_compute; reflexivity |].
  apply Hfail. vm_compute. discriminate.
Defined.

(** C9 as the specification words it fails on the empty signature buffer:
    its length is not 65, and [EcRecover] panics on it instead of returning
    an error. *)
Lemma EcRecover_empty_signature_panics :
  len (whole []) <> 65%nat
  /\ EcRecover stub_Ecrecover stub_Keccak256 sample_hash (whole []) =
     Panics IndexOutOfRange
  /\ ~ (exists address e,
          EcRecover stub_Ecrecover stub_Keccak256 sample_hash (whole []) =
          Returns (address, Some e)).
Proof.
  split; [discriminate|]. split; [reflexivity|].
  intros (address & e & H). discriminate H.
Qed.

Lemma EcRecover_unguarded_on_sample :
  EcRecover stub_Ecrecover stub_Keccak256 sample_hash
    (whole (x1b :: sample_r)) = Panics SliceBoundsOutOfRange.
Proof.
  destruct (EcRecover_unguarded stub_Ecrecover stub_Keccak256 sample_hash
              (whole (x1b :: sample_r))) as (_ & Hshort & _);
    [vm_compute; reflexivity|].
  apply Hshort; vm_compute; lia.
Defined.

(** ** Further properties of [allZero] *)

(** X1: [allZero] answers true exactly when every byte of the slice is zero
    (so on the empty slice too), and false exactly when some index within the
    length holds a non-zero byte. *)
Theorem allZero_spec (b : list byte) :
  (allZero b = true <-> Forall (fun x => x = x00) b)
  /\ (allZero b = false <->
      exists i, (i < length b)%nat /\ nth i b x00 <> x00).
Proof.
  induction b as [|x rest [IHt IHf]].
  - split; split; auto; try discriminate.
    intros (i & Hi & _). cbn in Hi. lia.
  - cbn [allZero]. destruct (Byte.eqb x x00) eqn:E; cbn [negb].
    + apply Byte.byte_dec_bl in E. subst x. split.
      * rewrite IHt. split; [now constructor|].
        intros H. now inversion H.
      * rewrite IHf. split.
        -- intros (i & Hi & Hn). exists (S i). cbn [length nth].
           split; [lia|auto].
        -- intros ([|i] & Hi & Hn); [now elim Hn|].
           exists i. cbn [length nth] in *. split; [lia|auto].
    + apply Byte.eqb_false in E. split.
      * split; [discriminate|]. intros H. inversion H. contradiction.
      * split; [|reflexivity]. intros _. exists 0%nat.
        cbn [length nth]. split; [lia|assumption].
Qed.

(** ** Further properties of [PrecompiledEcRecover] *)

Lemma LeftPadBytes_length (slice : list byte) (l : nat) :
  (l <= length (LeftPadBytes slice l))%nat.
Proof.
  unfold LeftPadBytes. destruct (l <=? length slice)%nat eqn:E.
  - now apply Nat.leb_le.
  - apply Nat.leb_gt in E. rewrite length_app, repeat_length. lia.
Qed.

Lemma sub_from_cases (l : list byte) (lo : nat) :
  sub_from l lo =
  if (lo <=? length l)%nat then Returns (skipn lo l)
  else Panics SliceBoundsOutOfRange.
Proof. reflexivity. Qed.

(** The three parts of the signature the primitive receives. *)
Lemma signature_parts (a b : list byte) (c : byte) :
  length a = 32%nat -> length b = 32%nat ->
  length (a ++ b ++ [c]) = 65%nat
  /\ firstn 32 (a ++ b ++ [c]) = a
  /\ firstn 32 (skipn 32 (a ++ b ++ [c])) = b
  /\ nth 64 (a ++ b ++ [c]) x00 = c.
Proof.
  intros Ha Hb. repeat split.
  - rewrite !length_app, Ha, Hb. reflexivity.
  - rewrite firstn_app, Ha, firstn_all2 by lia. cbn. apply app_nil_r.
  - rewrite skipn_app, Ha, skipn_all2 by lia. cbn [Nat.sub skipn app].
    rewrite firstn_app, Hb, firstn_all2 by lia. cbn. apply app_nil_r.
  - rewrite app_assoc.
    replace 64%nat with (length (a ++ b)) by (rewrite length_app; lia).
    apply nth_middle.
Qed.

Lemma view_field_lengths (w : list byte) :
  length w = 128%nat ->
  length (field_hash w) = 32%nat
  /\ length (field_r w) = 32%nat
  /\ length (field_s w) = 32%nat.
Proof.
  intros H. unfold field_hash, field_r, field_s.
  rewrite !length_firstn, !length_skipn, H. repeat split.
Qed.

Lemma truncated_s_is_zero (input : list byte) :
  (length input <= 96)%nat ->
  field_s (normalized input) = repeat x00 32.
Proof.
  intros H. unfold normalized, field_s.
  assert ((length input <? 128)%nat = true) as -> by (apply Nat.ltb_lt; lia).
  rewrite skipn_app, skipn_zeros, (skipn_all2 input) by lia.
  replace (128 - length input - (96 - length input))%nat with 32%nat by lia.
  reflexivity.
Qed.

Section PrecompileRobustness.

Variable Ecrecover : list byte -> list byte -> list byte * error.
Variable Keccak256 : list byte -> list byte.

(** A non-nil output is a left-padded one: 32 bytes at least. *)
Lemma PrecompiledEcRecover_output_length
      (input output : list byte) (err : error) :
  PrecompiledEcRecover Ecrecover Keccak256 input = Returns (output, err) ->
  output = [] \/ (32 <= length output)%nat.
Proof.
  rewrite PrecompiledEcRecover_on_view.
  destruct (validation_gate _); [|intros [= <- _]; now left].
  unfold recover. destruct (Ecrecover _ _) as [pubKey [e|]];
    [intros [= <- _]; now left|].
  destruct (sub_from pubKey 1); cbn [bind]; [|discriminate].
  destruct (sub_from _ 12); cbn [bind]; [|discriminate].
  intros [= <- _]. right. apply LeftPadBytes_length.
Qed.

(** X2: whatever the two primitives do, a run of [PrecompiledEcRecover] that
    returns has a nil error and an output that is nil or at least 32 bytes
    long. *)
Theorem PrecompiledEcRecover_returns_shape
        (input output : list byte) (err : error) :
  PrecompiledEcRecover Ecrecover Keccak256 input = Returns (output, err) ->
  err = None /\ (output = [] \/ (32 <= length output)%nat).
Proof.
  intros H. split.
  - now apply (PrecompiledEcRecover_nil_error _ _ _ _ _ H).
  - now apply (PrecompiledEcRecover_output_length _ _ _ H).
Qed.

(** X3: [PrecompiledEcRecover] panics only past the validation gate, on
    [pubKey[1:]] or on the digest's [[12:]]: exactly when the recovery
    primitive reports success with an empty key, or the digest of the key's
    coordinates has fewer than 12 bytes. The panic is a slice-bounds one. *)
Theorem PrecompiledEcRecover_panics_iff (input : list byte) (p : panic) :
  PrecompiledEcRecover Ecrecover Keccak256 input = Panics p <->
  p = SliceBoundsOutOfRange
  /\ validation_gate (normalized input) = true
  /\ exists pubKey,
       Ecrecover (field_hash (normalized input))
         (signature_of (normalized input)) = (pubKey, None)
       /\ (pubKey = []
           \/ (length (Keccak256 (skipn 1 pubKey)) < 12)%nat).
Proof.
  rewrite PrecompiledEcRecover_on_view.
  destruct (validation_gate (normalized input)).
  2: { split; [discriminate|]. intros (_ & H & _). discriminate H. }
  unfold recover.
  destruct (Ecrecover _ _) as [pubKey [e|]].
  { split; [discriminate|]. intros (_ & _ & k & H & _). discriminate H. }
  rewrite !sub_from_cases.
  destruct (1 <=? length pubKey)%nat eqn:E1; cbn [bind].
  - rewrite sub_from_cases.
    destruct (12 <=? length (Keccak256 (skipn 1 pubKey)))%nat eqn:E2;
      cbn [bind].
    + split; [discriminate|].
      intros (_ & _ & k & H & [Hk|Hk]); injection H as <-.
      * subst pubKey. discriminate E1.
      * apply Nat.leb_le in E2. lia.
    + split.
      * intros [= <-]. repeat split. exists pubKey. split; [reflexivity|].
        right. now apply Nat.leb_gt.
      * now intros (-> & _).
  - split.
    + intros [= <-]. repeat split. exists pubKey. split; [reflexivity|].
      left. apply Nat.leb_gt in E1. destruct pubKey; [reflexivity|].
      cbn in E1. lia.
    + now intros (-> & _).
Qed.

(** X4: an input of at most 96 bytes, one that stops before the first byte
    of s, is read with s = 0 and is rejected with the nil output and a nil
    error, whatever its bytes and whatever the primitives. *)
Theorem PrecompiledEcRecover_rejects_truncated (input : list byte) :
  (length input <= 96)%nat ->
  SetBytes (field_s (normalized input)) = 0
  /\ PrecompiledEcRecover Ecrecover Keccak256 input = Returns ([], None).
Proof.
  intros H.
  assert (SetBytes (field_s (normalized input)) = 0) as Hs
    by now rewrite truncated_s_is_zero.
  split; [exact Hs|]. apply validation_gate_closed.
  destruct (validation_gate (normalized input)) eqn:Hg; [|reflexivity].
  apply validation_gate_true_iff in Hg as (_ & _ & Hpos & _). lia.
Qed.

(** X5: the recovery primitive is consulted only on arguments that passed
    validation: a 32-byte hash and a 65-byte signature r, s, id with
    0 < r, s < curve order and id 0 or 1. Two primitives that agree on such
    arguments give the same result on every input. *)
Theorem PrecompiledEcRecover_primitive_on_valid_only
        (Ecrecover' : list byte -> list byte -> list byte * error)
        (input : list byte) :
  (forall hash sig,
      length hash = 32%nat -> length sig = 65%nat ->
      0 < SetBytes (firstn 32 sig) < secp256k1N ->
      0 < SetBytes (firstn 32 (skipn 32 sig)) < secp256k1N ->
      nth 64 sig x00 = x00 \/ nth 64 sig x00 = x01 ->
      Ecrecover hash sig = Ecrecover' hash sig) ->
  PrecompiledEcRecover Ecrecover Keccak256 input =
  PrecompiledEcRecover Ecrecover' Keccak256 input.
Proof.
  intros Hagree. rewrite !PrecompiledEcRecover_on_view.
  set (w := normalized input).
  destruct (validation_gate w) eqn:Hg; [|reflexivity].
  apply validation_gate_true_iff in Hg as (_ & Hr & Hs & Hv).
  destruct (view_field_lengths w (normalized_length input)) as (Lh & Lr & Ls).
  destruct (signature_parts (field_r w) (field_s w) (recovery_id w) Lr Ls)
    as (L & Pr & Ps & Pid).
  unfold recover. fold (signature_of w) in L, Pr, Ps, Pid.
  rewrite (Hagree (field_hash w) (signature_of w)); try assumption.
  - reflexivity.
  - now rewrite Pr.
  - now rewrite Ps.
  - rewrite Pid. unfold recovery_id.
    destruct Hv as [-> | ->]; [left|right]; reflexivity.
Qed.

End PrecompileRobustness.

(** ** Further properties of [EcRecover] *)

Lemma BytesToAddress_exact (b : list byte) :
  length b = AddressLength -> BytesToAddress b = b.
Proof.
  intros H. unfold BytesToAddress. rewrite H, Nat.ltb_irrefl, H, Nat.sub_diag.
  reflexivity.
Qed.

Lemma unpack_returns (output : list byte) :
  (32 <= length output)%nat ->
  unpack (Returns (output, None)) =
  Returns (firstn 20 (skipn 12 output), None)
  /\ length (firstn 20 (skipn 12 output)) = 20%nat.
Proof.
  intros H.
  assert (length (firstn 20 (skipn 12 output)) = 20%nat) as L
    by (rewrite length_firstn, length_skipn; lia).
  split; [|exact L]. unfold unpack. cbn [bind].
  rewrite sub_ok by lia. cbn [bind]. change (32 - 12)%nat with 20%nat.
  now rewrite BytesToAddress_exact.
Qed.

(** The fields of the packed layout, read from the compact signature. *)
Lemma packed_signature (Hash l : list byte) :
  length Hash = 32%nat -> (65 <= length l)%nat ->
  field_v (packed Hash l) = nth 0 l x00
  /\ field_r (packed Hash l) = firstn 32 (skipn 1 l)
  /\ field_s (packed Hash l) = firstn 32 (skipn 33 l)
  /\ signature_of (packed Hash l) =
     firstn 64 (skipn 1 l) ++ [byte_sub (nth 0 l x00) x1b].
Proof.
  intros HH Hl.
  destruct (packed_fields Hash l HH Hl) as (L & F1 & F2 & F3 & F4).
  assert (field_v (packed Hash l) = nth 0 l x00) as Hv.
  { unfold field_v. destruct l as [|v rest]; [cbn in Hl; lia|].
    cbn [nth_error] in F3. now apply nth_error_nth. }
  assert (field_r (packed Hash l) = firstn 32 (skipn 1 l)) as Hr.
  { unfold field_r. now rewrite F4, firstn_firstn. }
  assert (field_s (packed Hash l) = firstn 32 (skipn 33 l)) as Hs.
  { unfold field_s. change 96%nat with (32 + 64)%nat.
    rewrite <- skipn_skipn, F4.
    change 32%nat with (64 - 32)%nat at 1.
    rewrite (window_firstn 64 32 64) by lia. now rewrite skipn_skipn. }
  repeat split; try assumption.
  unfold signature_of, recovery_id.
  rewrite app_assoc, <- rs_window, F4, firstn_firstn, Hv. reflexivity.
Qed.

Lemma packed_validation (Hash l : list byte) :
  length Hash = 32%nat -> (65 <= length l)%nat ->
  validation_gate (packed Hash l) = true <->
  (nth 0 l x00 = x1b \/ nth 0 l x00 = x1c)
  /\ 0 < SetBytes (firstn 32 (skipn 1 l)) < secp256k1N
  /\ 0 < SetBytes (firstn 32 (skipn 33 l)) < secp256k1N.
Proof.
  intros HH Hl.
  destruct (packed_fields Hash l HH Hl) as (_ & _ & F2 & _).
  destruct (packed_signature Hash l HH Hl) as (Hv & Hr & Hs & _).
  rewrite validation_gate_true_iff, F2, Hv, Hr, Hs.
  pose proof (allZero_zeros 31). tauto.
Qed.

Section AdapterProperties.

Variable Ecrecover : list byte -> list byte -> list byte * error.
Variable Keccak256 : list byte -> list byte.

Lemma EcRecover_on_packed (Hash : list byte) (VRS : slice) :
  length Hash = 32%nat -> len VRS = 65%nat ->
  EcRecover Ecrecover Keccak256 Hash VRS =
  unpack (PrecompiledEcRecover Ecrecover Keccak256 (packed Hash (elems VRS))).
Proof.
  intros HH Hlen. unfold len in Hlen.
  rewrite EcRecover_in_bounds by (unfold len, cap; lia).
  now rewrite packed_backing by lia.
Qed.

Lemma PrecompiledEcRecover_on_packed (Hash l : list byte) :
  length Hash = 32%nat -> (65 <= length l)%nat ->
  PrecompiledEcRecover Ecrecover Keccak256 (packed Hash l) =
  if validation_gate (packed Hash l)
  then recover Ecrecover Keccak256 (packed Hash l)
  else Returns ([], None).
Proof.
  intros HH Hl. rewrite PrecompiledEcRecover_on_view, normalized_full.
  - reflexivity.
  - now apply packed_fields.
Qed.

(** X6: on a 32-byte hash and a 65-byte signature, [EcRecover] hands on a
    panic of [PrecompiledEcRecover], and turns a non-nil output into the 20
    bytes [output[12:32]] with a nil error, whatever the primitives. *)
Theorem EcRecover_returns_output_tail (Hash : list byte) (VRS : slice) :
  length Hash = 32%nat -> len VRS = 65%nat ->
  (forall output err,
      PrecompiledEcRecover Ecrecover Keccak256 (packed Hash (elems VRS))
        = Returns (output, err) ->
      output <> [] ->
      EcRecover Ecrecover Keccak256 Hash VRS =
        Returns (firstn 20 (skipn 12 output), None)
      /\ length (firstn 20 (skipn 12 output)) = 20%nat)
  /\ (forall p,
        PrecompiledEcRecover Ecrecover Keccak256 (packed Hash (elems VRS))
          = Panics p ->
        EcRecover Ecrecover Keccak256 Hash VRS = Panics p).
Proof.
  intros HH Hlen. rewrite EcRecover_on_packed by assumption. split.
  - intros output err HP Hne.
    pose proof (PrecompiledEcRecover_nil_error _ _ _ _ _ HP) as ->.
    destruct (PrecompiledEcRecover_output_length _ _ _ _ _ HP) as [E|Hlen32];
      [contradiction|].
    rewrite HP. now apply unpack_returns.
  - intros p HP. now rewrite HP.
Qed.

Lemma EcRecover_success (Hash pubKey : list byte) (VRS : slice) :
  length Hash = 32%nat -> len VRS = 65%nat ->
  validation_gate (packed Hash (elems VRS)) = true ->
  Ecrecover Hash
    (skipn 1 (elems VRS) ++ [byte_sub (nth 0 (elems VRS) x00) x1b])
    = (pubKey, None) ->
  length pubKey = 65%nat ->
  length (Keccak256 (skipn 1 pubKey)) = 32%nat ->
  EcRecover Ecrecover Keccak256 Hash VRS =
  Returns (last_bytes 20 (Keccak256 (skipn 1 pubKey)), None).
Proof.
  intros HH Hlen Hg HE Hk Hd. unfold len in Hlen.
  rewrite EcRecover_on_packed by assumption.
  rewrite PrecompiledEcRecover_on_packed, Hg by lia.
  destruct (packed_fields Hash (elems VRS) HH) as (_ & F1 & _); [lia|].
  destruct (packed_signature Hash (elems VRS) HH) as (_ & _ & _ & Hsig);
    [lia|].
  rewrite (firstn_all2 (n := 64) (skipn 1 (elems VRS))) in Hsig
    by (rewrite length_skipn; lia).
  rewrite (recover_success _ _ _ pubKey); try assumption.
  - destruct (unpack_returns (address_of Keccak256 pubKey)) as (-> & _).
    + rewrite address_of_length by assumption. lia.
    + unfold address_of, last_bytes. rewrite Hd.
      change (32 - 20)%nat with 12%nat.
      set (d := Keccak256 (skipn 1 pubKey)) in *.
      change (skipn 12 (repeat x00 12 ++ skipn 12 d)) with (skipn 12 d).
      rewrite firstn_all2 by (rewrite length_skipn; lia). reflexivity.
  - now rewrite F1, Hsig.
Qed.

Lemma EcRecover_nil_output (Hash : list byte) (VRS : slice) :
  length Hash = 32%nat -> len VRS = 65%nat ->
  PrecompiledEcRecover Ecrecover Keccak256 (packed Hash (elems VRS))
    = Returns ([], None) ->
  EcRecover Ecrecover Keccak256 Hash VRS = Panics SliceBoundsOutOfRange.
Proof.
  intros HH Hlen HP. rewrite EcRecover_on_packed, HP by assumption.
  reflexivity.
Qed.

(** X7: the compact signature v, r, s reaches the recovery primitive as
    r, s, v - 27. For a 32-byte hash and a 65-byte signature with v 27 or 28
    and 0 < r, s < curve order on which the primitive succeeds with a 65-byte
    key (the digest being 32 bytes), [EcRecover] returns the last 20 bytes of
    the Keccak-256 digest of the key without its first byte, and a nil
    error. *)
Theorem EcRecover_recovers_address (Hash pubKey : list byte) (VRS : slice) :
  length Hash = 32%nat -> len VRS = 65%nat ->
  nth 0 (elems VRS) x00 = x1b \/ nth 0 (elems VRS) x00 = x1c ->
  0 < SetBytes (firstn 32 (skipn 1 (elems VRS))) < secp256k1N ->
  0 < SetBytes (firstn 32 (skipn 33 (elems VRS))) < secp256k1N ->
  Ecrecover Hash
    (skipn 1 (elems VRS) ++ [byte_sub (nth 0 (elems VRS) x00) x1b])
    = (pubKey, None) ->
  length pubKey = 65%nat ->
  length (Keccak256 (skipn 1 pubKey)) = 32%nat ->
  EcRecover Ecrecover Keccak256 Hash VRS =
    Returns (last_bytes 20 (Keccak256 (skipn 1 pubKey)), None)
  /\ length (last_bytes 20 (Keccak256 (skipn 1 pubKey))) = 20%nat.
Proof.
  intros HH Hlen Hv Hr Hs HE Hk Hd. split.
  - apply EcRecover_success; try assumption.
    apply packed_validation; [assumption|unfold len in Hlen; lia|tauto].
  - unfold last_bytes. rewrite length_skipn, Hd. reflexivity.
Qed.

(** X8: with a recovery primitive whose successes are 65-byte keys and a
    32-byte digest function, [EcRecover] on a 32-byte hash and a 65-byte
    signature has two outcomes only: a 20-byte address with a nil error, or
    the slice-bounds panic. It returns exactly when v is 27 or 28, r and s
    lie strictly between 0 and the curve order, and the primitive succeeds
    on the hash and r, s, v - 27. *)
Theorem EcRecover_returns_iff (Hash : list byte) (VRS : slice) :
  (forall hash sig pubKey,
      Ecrecover hash sig = (pubKey, None) -> length pubKey = 65%nat) ->
  (forall data, length (Keccak256 data) = 32%nat) ->
  length Hash = 32%nat -> len VRS = 65%nat ->
  ((exists address,
       EcRecover Ecrecover Keccak256 Hash VRS = Returns (address, None)) <->
   (nth 0 (elems VRS) x00 = x1b \/ nth 0 (elems VRS) x00 = x1c)
   /\ 0 < SetBytes (firstn 32 (skipn 1 (elems VRS))) < secp256k1N
   /\ 0 < SetBytes (firstn 32 (skipn 33 (elems VRS))) < secp256k1N
   /\ snd (Ecrecover Hash
             (skipn 1 (elems VRS)
                ++ [byte_sub (nth 0 (elems VRS) x00) x1b])) = None)
  /\ ((exists address,
         EcRecover Ecrecover Keccak256 Hash VRS = Returns (address, None)
         /\ length address = 20%nat)
      \/ EcRecover Ecrecover Keccak256 Hash VRS
         = Panics SliceBoundsOutOfRange).
Proof.
  intros Hkey Hdigest HH Hlen.
  assert (65 <= length (elems VRS))%nat as Hl by (unfold len in Hlen; lia).
  pose proof (packed_validation Hash (elems VRS) HH Hl) as Hval.
  destruct (packed_fields Hash (elems VRS) HH Hl) as (_ & F1 & _).
  destruct (packed_signature Hash (elems VRS) HH Hl) as (_ & _ & _ & Hsig).
  rewrite (firstn_all2 (n := 64) (skipn 1 (elems VRS))) in Hsig
    by (rewrite length_skipn; unfold len in Hlen; lia).
  set (sig := skipn 1 (elems VRS) ++ [byte_sub (nth 0 (elems VRS) x00) x1b])
    in *.
  assert (validation_gate (packed Hash (elems VRS)) = false
          \/ snd (Ecrecover Hash sig) <> None ->
          EcRecover Ecrecover Keccak256 Hash VRS
          = Panics SliceBoundsOutOfRange) as Hpanic.
  { intros Hbad. apply EcRecover_nil_output; try assumption.
    rewrite PrecompiledEcRecover_on_packed by assumption.
    destruct (validation_gate _); [|reflexivity].
    destruct Hbad as [Hbad|Hbad]; [discriminate|].
    apply recover_failure. now rewrite F1, Hsig. }
  destruct (validation_gate (packed Hash (elems VRS))) eqn:Hg.
  - destruct (Ecrecover Hash sig) as [pubKey [e|]] eqn:HE.
    + rewrite Hpanic by (right; discriminate). split; [|now right].
      split; [intros (a & H); discriminate|].
      intros (_ & _ & _ & H). discriminate H.
    + assert (EcRecover Ecrecover Keccak256 Hash VRS =
              Returns (last_bytes 20 (Keccak256 (skipn 1 pubKey)), None))
        as Hrun.
      { apply EcRecover_success; try assumption.
        - now apply (Hkey _ _ _ HE).
        - apply Hdigest. }
      rewrite Hrun. split.
      * split; [intros _|intros _; eexists; reflexivity].
        destruct Hval as [Hval _]. specialize (Hval eq_refl).
        cbn [snd]. tauto.
      * left. eexists. split; [reflexivity|].
        unfold last_bytes. rewrite length_skipn, Hdigest. reflexivity.
  - rewrite Hpanic by now left. split; [|now right].
    split; [intros (a & H); discriminate|].
    intros (Hv & Hr & Hs & _). destruct Hval as [_ Hval].
    now discriminate Hval.
Qed.

(** X9: [EcRecover] reads the signature through its backing array: on two
    non-empty slices of capacity at least 65 whose arrays agree on the first
    65 bytes it gives the same result, however many of those bytes each slice
    shows; a slice shorter than 65 is completed from its spare capacity. *)
Theorem EcRecover_reads_backing_array (Hash : list byte) (VRS VRS' : slice) :
  length Hash = 32%nat ->
  (0 < len VRS)%nat -> (65 <= cap VRS)%nat ->
  (0 < len VRS')%nat -> (65 <= cap VRS')%nat ->
  firstn 65 (elems VRS ++ spare VRS) = firstn 65 (elems VRS' ++ spare VRS') ->
  EcRecover Ecrecover Keccak256 Hash VRS =
  EcRecover Ecrecover Keccak256 Hash VRS'.
Proof.
  intros HH Hpos Hcap Hpos' Hcap' Heq.
  rewrite !EcRecover_in_bounds by assumption.
  now rewrite <- (packed_firstn Hash (elems VRS ++ _)), Heq, packed_firstn.
Qed.

End AdapterProperties.

(** ** The further properties on concrete inputs *)

Lemma stub_Ecrecover_loose_agrees (hash sig : list byte) :
  length hash = 32%nat -> length sig = 65%nat ->
  stub_Ecrecover hash sig = stub_Ecrecover_loose hash sig.
Proof.
  intros Hh Hs. unfold stub_Ecrecover_loose. now rewrite Hh, Hs.
Qed.

Lemma PrecompiledEcRecover_returns_shape_on_sample :
  PrecompiledEcRecover stub_Ecrecover stub_Keccak256 sample_valid =
    Returns (address_of stub_Keccak256 (x04 :: sample_r ++ sample_low_s), None)
  /\ (address_of stub_Keccak256 (x04 :: sample_r ++ sample_low_s) = []
      \/ (32 <= length
                  (address_of stub_Keccak256
                     (x04 :: sample_r ++ sample_low_s)))%nat).
Proof.
  assert (PrecompiledEcRecover stub_Ecrecover stub_Keccak256 sample_valid =
          Returns (address_of stub_Keccak256
                     (x04 :: sample_r ++ sample_low_s), None)) as Hrun
    by (vm_compute; reflexivity).
  split; [exact Hrun|].
  exact (proj2 (PrecompiledEcRecover_returns_shape stub_Ecrecover
                  stub_Keccak256 sample_valid _ _ Hrun)).
Defined.

Lemma PrecompiledEcRecover_rejects_truncated_on_sample :
  length sample_truncated = 96%nat
  /\ PrecompiledEcRecover stub_Ecrecover stub_Keccak256 sample_truncated =
     Returns ([], None).
Proof.
  split; [vm_compute; reflexivity|].
  apply (PrecompiledEcRecover_rejects_truncated stub_Ecrecover stub_Keccak256
           sample_truncated).
  vm_compute. lia.
Defined.

Lemma PrecompiledEcRecover_primitive_on_valid_only_on_sample :
  PrecompiledEcRecover stub_Ecrecover stub_Keccak256 sample_valid =
  PrecompiledEcRecover stub_Ecrecover_loose stub_Keccak256 sample_valid.
Proof.
  apply (PrecompiledEcRecover_primitive_on_valid_only stub_Ecrecover
           stub_Keccak256 stub_Ecrecover_loose sample_valid).
  intros hash sig Hh Hs _ _ _. now apply stub_Ecrecover_loose_agrees.
Defined.

Lemma EcRecover_returns_output_tail_on_sample :
  EcRecover stub_Ecrecover stub_Keccak256 sample_hash (whole sample_vrs) =
  Returns (firstn 20
             (skipn 12
                (address_of stub_Keccak256
                   (x04 :: sample_r ++ sample_low_s))), None).
Proof.
  destruct (EcRecover_returns_output_tail stub_Ecrecover stub_Keccak256
              sample_hash (whole sample_vrs)) as (Hret & _);
    [vm_compute; reflexivity | vm_compute; reflexivity |].
  apply (Hret _ None); [vm_compute; reflexivity | vm_compute; discriminate].
Defined.

Lemma EcRecover_recovers_address_on_sample :
  EcRecover stub_Ecrecover stub_Keccak256 sample_hash (whole sample_vrs) =
  Returns (last_bytes 20
             (stub_Keccak256 (skipn 1 (x04 :: sample_r ++ sample_low_s))),
           None).
Proof.
  apply (EcRecover_recovers_address stub_Ecrecover stub_Keccak256 sample_hash
           (x04 :: sample_r ++ sample_low_s) (whole sample_vrs));
    try (vm_compute; reflexivity).
  - left. vm_compute. reflexivity.
  - vm_compute. split; reflexivity.
  - vm_compute. split; reflexivity.
Defined.

Lemma EcRecover_returns_iff_on_sample :
  (exists address,
      EcRecover stub_Ecrecover stub_Keccak256 sample_hash (whole sample_vrs)
      = Returns (address, None) /\ length address = 20%nat)
  \/ EcRecover stub_Ecrecover stub_Keccak256 sample_hash (whole sample_vrs)
     = Panics SliceBoundsOutOfRange.
Proof.
  apply (EcRecover_returns_iff stub_Ecrecover stub_Keccak256 sample_hash
           (whole sample_vrs) stub_Ecrecover_key_length
           stub_Keccak256_length);
    vm_compute; reflexivity.
Defined.

Lemma EcRecover_reads_backing_array_on_sample :
  len sample_short_vrs = 1%nat
  /\ EcRecover stub_Ecrecover stub_Keccak256 sample_hash sample_short_vrs =
     EcRecover stub_Ecrecover stub_Keccak256 sample_hash (whole sample_vrs).
Proof.
  split; [reflexivity|].
  apply (EcRecover_reads_backing_array stub_Ecrecover stub_Keccak256
           sample_hash sample_short_vrs (whole sample_vrs));
    try (vm_compute; reflexivity); vm_compute; lia.
Defined.
